(** * hyperglass command line interface: [hyperglass/cli/main.py]

    A shallow embedding of the command handlers of the hyperglass CLI
    ([_start], [_devices], [_directives], [_plugins], [_params]) and the
    properties of their control flow: which collaborators are called, what is
    echoed or printed, and how each command ends.

    A command is a computation that appends to a trace of observable events
    and either returns or raises a Python exception.  [typer.Exit] is an
    exception like any other; what the process exit code is, once the command
    has ended, is decided by [exit_status].

    A Python [str] is held as the bytes of its UTF-8 encoding: a character
    is one byte that is not a continuation byte, followed by the
    continuation bytes that belong to it. *)

From Stdlib Require Import String Ascii List ZArith Bool Lia DecimalString.
Import ListNotations.
Open Scope string_scope.
Open Scope Z_scope.
Open Scope list_scope.
#[local] Set Warnings "-register-all".

(** ** Python values and exceptions *)

(** The values that travel as exception arguments and return values here. *)
Inductive pyval : Type :=
| PyNone
| PyInt (n : Z)
| PyStr (s : string).

(** [str(v)]. *)
Definition py_str (v : pyval) : string :=
  match v with
  | PyNone => "None"
  | PyInt n => NilZero.string_of_int (Z.to_int n)
  | PyStr s => s
  end.

(** The exit code that [sys.exit(v)] stands for. *)
Definition py_exit_code (v : pyval) : Z :=
  match v with
  | PyNone => 0
  | PyInt n => n
  | PyStr _ => 1
  end.

(** The continuation bytes of UTF-8, [0x80] to [0xBF]. *)
Definition is_continuation (b : ascii) : bool :=
  let n := nat_of_ascii b in ((128 <=? n) && (n <=? 191))%nat.

(** [len(s)] of a string, as a Python int: the number of its characters,
    that is, of the bytes that start one. *)
Definition py_len (s : string) : Z :=
  Z.of_nat
    (length (filter (fun b => negb (is_continuation b))
               (list_ascii_of_string s))).

(** The exceptions that the commands raise, catch or let through.  An
    exception built from at most one argument: [KeyboardInterrupt()] is
    [KeyboardInterrupt None], [SystemExit(3)] is
    [SystemExit (Some (PyInt 3))]. *)
Inductive exn : Type :=
| KeyboardInterrupt (arg : option pyval)
| SystemExit (arg : option pyval)
| TyperExit (code : Z)
| ReError
| AttributeError
| OtherError (name : string).

(** [str(err)] for [BaseException]: empty without argument, [str] of the
    argument when there is one. *)
Definition exn_str (e : exn) : string :=
  match e with
  | KeyboardInterrupt None | SystemExit None => ""
  | KeyboardInterrupt (Some v) | SystemExit (Some v) => py_str v
  | TyperExit _ => ""
  | ReError => "re.error"
  | AttributeError => "AttributeError"
  | OtherError name => name
  end.

(** The [except (KeyboardInterrupt, SystemExit)] filter of [_start].
    [typer.Exit] derives from [RuntimeError], not from [SystemExit]. *)
Definition is_interrupt (e : exn) : bool :=
  match e with
  | KeyboardInterrupt _ | SystemExit _ => true
  | _ => false
  end.

(** ** Named entities and the configuration tree *)

(** A device, directive or plugin, as far as the CLI reads it. *)
Record NamedEntity : Type := mkEntity {
  id : string;
  name : string
}.

(** An object of the parameter tree: what it displays as, and its attribute
    table.  [getattr] looks a name up in the table. *)
Inductive pyobj : Type :=
| Obj (shown : string) (attrs : list (string * pyobj)).

(** ** Observable events *)

(** Pieces of an f-string: literal text and [{x!r}] fields. *)
Inductive fpart : Type :=
| FText (s : string)
| FRepr (s : string).

Definition message : Type := list fpart.

(** What is handed to [echo._console.print]: one panel, or [Columns] of
    panels.  [Inspect] keeps the inspected object and its title (the other
    keyword arguments are the same constants at every call); a plugin is
    rendered as itself. *)
Inductive panel : Type :=
| Inspect (e : NamedEntity) (title : string)
| InspectValue (v : pyobj) (title : string)
| Plugin (e : NamedEntity).

Inductive renderable : Type :=
| Single (p : panel)
| Columns (items : list panel).

Inductive event : Type :=
| CallBuildUi (timeout : Z)
| CallStartServer (workers : option Z)
| EchoWarning (m : message)
| EchoError (m : message)
| ConsolePrint (r : renderable).

(** ** The command monad: a trace and a result *)

Inductive result (A : Type) : Type :=
| Ok (a : A)
| Raise (e : exn).
Arguments Ok {A} a.
Arguments Raise {A} e.

Definition Cmd (A : Type) : Type := list event * result A.

Definition ret {A} (a : A) : Cmd A := ([], Ok a).

Definition bind {A B} (m : Cmd A) (k : A -> Cmd B) : Cmd B :=
  match m with
  | (t, Ok a) => let (t', r) := k a in (t ++ t', r)
  | (t, Raise e) => (t, Raise e)
  end.

Definition emit (ev : event) : Cmd unit := ([ev], Ok tt).

Definition raise {A} (e : exn) : Cmd A := ([], Raise e).

(** [try: m except <catches> as err: handler err]. *)
Definition try_except {A} (m : Cmd A) (catches : exn -> bool)
    (handler : exn -> Cmd A) : Cmd A :=
  match m with
  | (t, Ok a) => (t, Ok a)
  | (t, Raise e) =>
      if catches e then let (t', r) := handler e in (t ++ t', r)
      else (t, Raise e)
  end.

(** Lifting the outcome of an opaque collaborator. *)
Definition lift {A} (r : result A) : Cmd A := ([], r).

Declare Scope cmd_scope.
Delimit Scope cmd_scope with cmd.
Notation "x <- m ;; k" := (bind m (fun x => k))
  (at level 61, m at next level, right associativity) : cmd_scope.
Notation "m ;; k" := (bind m (fun _ => k))
  (at level 61, right associativity) : cmd_scope.
Open Scope cmd_scope.

Definition trace {A} (c : Cmd A) : list event := fst c.
Definition outcome {A} (c : Cmd A) : result A := snd c.

(** The exit code of the process once a command handler has ended, under
    typer's standalone mode: a normal return and [typer.Exit(code)] end the
    process with [0] and [code]; an exception that leaves the handler ends
    it with [1], except [SystemExit], which carries its own code. *)
Definition exit_status {A} (r : result A) : Z :=
  match r with
  | Ok _ => 0
  | Raise (TyperExit code) => code
  | Raise (SystemExit None) => 0
  | Raise (SystemExit (Some v)) => py_exit_code v
  | Raise _ => 1
  end.

(** ** [start] *)

(** The two collaborators of [_start], opaque to the CLI: [build_ui(timeout)]
    answers a completion flag or raises, [start_server(workers)] returns some
    value or raises. *)
Record StartEnv : Type := mkStartEnv {
  build_ui : Z -> result bool;
  start_server : option Z -> result pyval
}.

Definition call_build_ui (env : StartEnv) (timeout : Z) : Cmd bool :=
  emit (CallBuildUi timeout) ;; lift (build_ui env timeout).

Definition call_start_server (env : StartEnv) (workers : option Z) : Cmd unit :=
  emit (CallStartServer workers) ;;
  _ <- lift (start_server env workers) ;;
  ret tt.

Definition interrupt_notice : message :=
  [FText "Stopping hyperglass due to keyboard interrupt."].

Definition _start (env : StartEnv) (build : bool) (workers : option Z)
  : Cmd unit :=
  try_except
    (if build then
       build_complete <- call_build_ui env 180 ;;
       if build_complete : bool then call_start_server env workers
       else ret tt
     else call_start_server env workers)
    is_interrupt
    (fun err =>
       let error_message := exn_str err in
       (if 1 <? py_len error_message
        then emit (EchoWarning [FText (exn_str err)])
        else ret tt) ;;
       emit (EchoError interrupt_notice) ;;
       raise (TyperExit 0)).

(** How often the trace hands over to the service entry point, and how often
    it reports the fixed interrupt notice. *)
Definition is_service_call (ev : event) : bool :=
  match ev with CallStartServer _ => true | _ => false end.

Definition service_invocations (t : list event) : nat :=
  length (filter is_service_call t).

Definition is_interrupt_notice (ev : event) : bool :=
  match ev with
  | EchoError [FText s] =>
      String.eqb s "Stopping hyperglass due to keyboard interrupt."
  | _ => false
  end.

Definition interrupt_notices (t : list event) : nat :=
  length (filter is_interrupt_notice t).

(** The stage of a [start] invocation in which the collaborators raise [e]:
    the build, or the service once the build gate has let it start. *)
Definition raised_while_building (env : StartEnv) (build : bool) (e : exn)
  : Prop :=
  build = true /\ build_ui env 180 = Raise e.

Definition raised_while_serving (env : StartEnv) (build : bool)
    (workers : option Z) (e : exn) : Prop :=
  (build = false \/ build_ui env 180 = Ok true) /\
  start_server env workers = Raise e.

(** What the interrupt handler of [_start] adds to the trace. *)
Definition handler_trace (err : exn) : list event :=
  (if 1 <? py_len (exn_str err) then [EchoWarning [FText (exn_str err)]]
   else []) ++ [EchoError interrupt_notice].

(** ** Pattern search: [devices], [directives], [plugins] *)

(** The interface of Python's [re] module that the commands use:
    [re_compile s] is [re.compile(s, re.IGNORECASE)], [None] standing for
    [re.error]; [re_match p t] is the truth value of [p.match(t)]. *)
Class PyRegex : Type := {
  pattern : Type;
  re_compile : string -> option pattern;
  re_match : pattern -> string -> bool
}.

(** [for x in xs: body(x)]; an exception raised by the body ends the loop. *)
Fixpoint for_each {A} (xs : list A) (body : A -> Cmd unit) : Cmd unit :=
  match xs with
  | [] => ret tt
  | x :: rest => body x ;; for_each rest body
  end.

(** [if b: c], with nothing done otherwise. *)
Definition when (b : bool) (c : Cmd unit) : Cmd unit :=
  if b then c else ret tt.

(** The two plugin types, ["input"] and ["output"], and the part of the
    state store that [_plugins] reads: [state.plugins(_type)]. *)
Inductive plugin_type : Type := InputPlugin | OutputPlugin.

Record State : Type := mkState {
  plugins : plugin_type -> list NamedEntity
}.

Definition no_plugins_matching (search : string) : message :=
  [FText "No plugins matching "; FRepr search].

Section Search.
Context {engine : PyRegex}.

(** [re.compile(search, re.IGNORECASE)], raising [re.error] on a malformed
    pattern. *)
Definition compile (search : string) : Cmd pattern :=
  match re_compile search with
  | Some p => ret p
  | None => raise ReError
  end.

(** [pattern.match(entity.id) or pattern.match(entity.name)]. *)
Definition id_or_name_matches (p : pattern) (entity : NamedEntity) : bool :=
  re_match p (id entity) || re_match p (name entity).

Definition _devices (devices : list NamedEntity) (search : option string)
  : Cmd unit :=
  match search with
  | Some s =>
      p <- compile s ;;
      for_each devices (fun device =>
        when (id_or_name_matches p device)
          (emit (ConsolePrint (Single (Inspect device (name device)))) ;;
           raise (TyperExit 0)))
  | None => ret tt
  end ;;
  let panels := map (fun device => Inspect device (name device)) devices in
  emit (ConsolePrint (Columns panels)).

Definition _directives (directives : list NamedEntity)
    (search : option string) : Cmd unit :=
  match search with
  | Some s =>
      p <- compile s ;;
      for_each directives (fun directive =>
        when (id_or_name_matches p directive)
          (emit (ConsolePrint (Single (Inspect directive (name directive)))) ;;
           raise (TyperExit 0)))
  | None => ret tt
  end ;;
  let panels :=
    map (fun directive => Inspect directive (name directive)) directives in
  emit (ConsolePrint (Columns panels)).

Definition _plugins (state : State) (search : option string)
    (show_input show_output : bool) : Cmd unit :=
  let to_fetch :=
    if show_input then [InputPlugin]
    else if show_output then [OutputPlugin]
    else [InputPlugin; OutputPlugin] in
  let all_plugins := flat_map (fun _type => plugins state _type) to_fetch in
  match search with
  | Some s =>
      p <- compile s ;;
      let matching :=
        filter (fun plugin => re_match p (name plugin)) all_plugins in
      when (Z.of_nat (length matching) =? 0)
        (emit (EchoError (no_plugins_matching s)) ;; raise (TyperExit 1)) ;;
      emit (ConsolePrint (Columns (map Plugin matching))) ;;
      raise (TyperExit 0)
  | None => ret tt
  end ;;
  emit (ConsolePrint (Columns (map Plugin all_plugins))).
End Search.

(** ** [params]: dotted-path resolution *)

(** [s.split(sep)] for a one-character separator. *)
Fixpoint py_split (sep : ascii) (s : string) : list string :=
  match s with
  | EmptyString => [EmptyString]
  | String c rest =>
      if Ascii.eqb c sep then EmptyString :: py_split sep rest
      else match py_split sep rest with
           | head :: tail => String c head :: tail
           | [] => [String c EmptyString]
           end
  end.

(** [getattr(obj, name)]. *)
Definition getattr (obj : pyobj) (attr : string) : result pyobj :=
  match obj with
  | Obj _ attrs =>
      match find (fun kv => String.eqb (fst kv) attr) attrs with
      | Some kv => Ok (snd kv)
      | None => Raise AttributeError
      end
  end.

(** The loop of [operator.attrgetter]:
    [for name in names: obj = getattr(obj, name)]. *)
Fixpoint resolve_names (names : list string) (obj : pyobj) : result pyobj :=
  match names with
  | [] => Ok obj
  | n :: rest =>
      match getattr obj n with
      | Ok child => resolve_names rest child
      | Raise e => Raise e
      end
  end.

(** [attrgetter(path)(obj)] for a single dotted path. *)
Definition attrgetter (path : string) (obj : pyobj) : result pyobj :=
  resolve_names (py_split "." path) obj.

Definition is_attribute_error (e : exn) : bool :=
  match e with AttributeError => true | _ => false end.

Definition does_not_exist (path : string) : message :=
  [FRepr ("params." ++ path); FText " does not exist"].

Definition _params (params : pyobj) (path : option string) : Cmd unit :=
  match path with
  | Some p =>
      try_except
        (value <- lift (attrgetter p params) ;;
         emit (ConsolePrint (Single (InspectValue value ("params." ++ p)))) ;;
         raise (TyperExit 0))
        is_attribute_error
        (fun _ =>
           emit (EchoError (does_not_exist p)) ;;
           raise (TyperExit 1))
  | None => ret tt
  end ;;
  let panel := InspectValue params "hyperglass Configuration Parameters" in
  emit (ConsolePrint (Single panel)).





(** ** A reference engine for a fragment of the [re] syntax

    Literal ASCII characters, [.], grouping, [|] and the postfix operators
    [*], [+], [?] (each optionally followed by the lazy mark [?]), matched
    as [re.IGNORECASE] matches on a [str]: without regard to the case of
    letters, and character by character ([symbols]).  [Re.compile] answers
    [None] for the malformed patterns of the fragment (an unbalanced
    parenthesis, an operator with nothing to repeat, a repeated operator) and
    for every pattern outside the fragment (one that uses a backslash, an
    opening bracket or brace, [^] or [$], a character beyond ASCII, a group
    that opens with a question mark, or a possessive operator).  What is
    stated of the semantics of patterns is stated of those that
    [Re.compile] accepts. *)
Module Re.

Inductive regex : Type :=
| Empty
| Eps
| Chr (a : ascii)
| Any
| Seq (r1 r2 : regex)
| Alt (r1 r2 : regex)
| Star (r : regex).

(** ASCII lower case. *)
Definition lower (c : ascii) : ascii :=
  let n := nat_of_ascii c in
  if ((65 <=? n) && (n <=? 90))%nat then ascii_of_nat (n + 32) else c.

Definition ci_eqb (a c : ascii) : bool := Ascii.eqb (lower a) (lower c).

Definition newline : ascii := ascii_of_nat 10.

Fixpoint nullable (r : regex) : bool :=
  match r with
  | Empty | Chr _ | Any => false
  | Eps | Star _ => true
  | Seq r1 r2 => nullable r1 && nullable r2
  | Alt r1 r2 => nullable r1 || nullable r2
  end.

(** The derivative of [r] by the subject character [c]. *)
Fixpoint deriv (c : ascii) (r : regex) : regex :=
  match r with
  | Empty | Eps => Empty
  | Chr a => if ci_eqb a c then Eps else Empty
  | Any => if Ascii.eqb c newline then Empty else Eps
  | Seq r1 r2 =>
      if nullable r1 then Alt (Seq (deriv c r1) r2) (deriv c r2)
      else Seq (deriv c r1) r2
  | Alt r1 r2 => Alt (deriv c r1) (deriv c r2)
  | Star r1 => Seq (deriv c r1) (Star r1)
  end.

(** [pattern.match(subject)]: does some prefix of the subject match? *)
Fixpoint match_prefix (r : regex) (subject : list ascii) : bool :=
  nullable r ||
  match subject with
  | [] => false
  | c :: rest => match_prefix (deriv c r) rest
  end.

(** The words that a pattern matches in full. *)
Inductive lang : regex -> list ascii -> Prop :=
| lang_eps : lang Eps []
| lang_chr a c : ci_eqb a c = true -> lang (Chr a) [c]
| lang_any c : Ascii.eqb c newline = false -> lang Any [c]
| lang_seq r1 r2 w1 w2 : lang r1 w1 -> lang r2 w2 -> lang (Seq r1 r2) (w1 ++ w2)
| lang_alt_l r1 r2 w : lang r1 w -> lang (Alt r1 r2) w
| lang_alt_r r1 r2 w : lang r2 w -> lang (Alt r1 r2) w
| lang_star_nil r : lang (Star r) []
| lang_star_cons r w1 w2 :
    lang r w1 -> lang (Star r) w2 -> lang (Star r) (w1 ++ w2).

(** *** The parser *)

(** What the last thing read was, for the postfix operators. *)
Inductive last_item : Type := NothingYet | Atom | Quantified | Lazy.

(** An open group: the alternatives already closed by [|] and the items of
    the current alternative, both latest first. *)
Record frame : Type := mkFrame {
  alts : list regex;
  items : list regex
}.

Record pstate : Type := mkPstate {
  cur : frame;
  stack : list frame;
  last : last_item
}.

Definition seq_of (items_rev : list regex) : regex :=
  fold_left (fun acc r => Seq r acc) items_rev Eps.

Definition close (f : frame) : regex :=
  fold_left (fun acc r => Alt r acc) (alts f) (seq_of (items f)).

Definition push (r : regex) (st : pstate) : pstate :=
  mkPstate (mkFrame (alts (cur st)) (r :: items (cur st))) (stack st) Atom.

Definition quantify (q : regex -> regex) (st : pstate) : option pstate :=
  match last st, items (cur st) with
  | Atom, r :: rest =>
      Some (mkPstate (mkFrame (alts (cur st)) (q r :: rest)) (stack st)
              Quantified)
  | _, _ => None
  end.

Definition step (c : ascii) (st : pstate) : option pstate :=
  match c with
  | "("%char =>
      Some (mkPstate (mkFrame [] []) (cur st :: stack st) NothingYet)
  | ")"%char =>
      match stack st with
      | [] => None
      | f :: below =>
          Some (mkPstate (mkFrame (alts f) (close (cur st) :: items f))
                  below Atom)
      end
  | "|"%char =>
      Some (mkPstate
              (mkFrame (seq_of (items (cur st)) :: alts (cur st)) [])
              (stack st) NothingYet)
  | "*"%char => quantify Star st
  | "+"%char => quantify (fun r => Seq r (Star r)) st
  | "?"%char =>
      match last st with
      | Quantified => Some (mkPstate (cur st) (stack st) Lazy)
      | _ => quantify (fun r => Alt r Eps) st
      end
  | "."%char => Some (push Any st)
  | "\"%char | "["%char | "{"%char | "^"%char | "$"%char => None
  | _ => if (nat_of_ascii c <? 128)%nat then Some (push (Chr c) st) else None
  end.

Fixpoint parse (s : string) (st : pstate) : option regex :=
  match s with
  | EmptyString =>
      match stack st with
      | [] => Some (close (cur st))
      | _ :: _ => None
      end
  | String c rest =>
      match step c st with
      | Some st' => parse rest st'
      | None => None
      end
  end.

Definition compile (s : string) : option regex :=
  parse s (mkPstate (mkFrame [] []) [] NothingYet).

(** The subject as the engine reads it under [re.IGNORECASE], one symbol
    per character.  An ASCII character is its own symbol.  Beyond ASCII, the
    characters that the flag identifies with an ASCII letter are read as
    that letter: U+0130 and U+0131 as [i], U+017F as [s], U+212A as [k];
    every other character is read as [other], which no pattern of the
    fragment names (its patterns are ASCII) and which [.] accepts. *)
Definition byte (n : nat) : ascii := ascii_of_nat n.

Definition other : ascii := byte 128.

Definition folded_symbol (lead : ascii) (rest : list ascii) : ascii :=
  match rest with
  | [] => other
  | c1 :: tail =>
      if Ascii.eqb lead (byte 196)
         && (Ascii.eqb c1 (byte 176) || Ascii.eqb c1 (byte 177))
      then "i"%char
      else if Ascii.eqb lead (byte 197) && Ascii.eqb c1 (byte 191)
      then "s"%char
      else if Ascii.eqb lead (byte 226) && Ascii.eqb c1 (byte 132)
              && match tail with
                 | c2 :: _ => Ascii.eqb c2 (byte 170)
                 | [] => false
                 end
      then "k"%char
      else other
  end.

Fixpoint symbols (bytes : list ascii) : list ascii :=
  match bytes with
  | [] => []
  | b :: rest =>
      if (nat_of_ascii b <? 128)%nat then b :: symbols rest
      else if is_continuation b then symbols rest
      else folded_symbol b rest :: symbols rest
  end.

Definition matches (r : regex) (subject : string) : bool :=
  match_prefix r (symbols (list_ascii_of_string subject)).

(** A character that stands for itself in a pattern. *)
Definition literal_char (c : ascii) : bool :=
  match c with
  | "("%char | ")"%char | "|"%char | "*"%char | "+"%char | "?"%char
  | "."%char | "\"%char | "["%char | "{"%char | "^"%char | "$"%char => false
  | _ => (nat_of_ascii c <? 128)%nat
  end.

(** Does [p] start [t], letter case apart? *)
Fixpoint ci_prefix (p t : list ascii) : bool :=
  match p, t with
  | [], _ => true
  | _ :: _, [] => false
  | a :: p', c :: t' => ci_eqb a c && ci_prefix p' t'
  end.

End Re.

#[export] Instance fragment_engine : PyRegex := {|
  pattern := Re.regex;
  re_compile := Re.compile;
  re_match := Re.matches
|}.

(** ** Vocabulary of the statements *)

(** The subject begins with a word of the pattern. *)
Definition starts_with (r : Re.regex) (subject : string) : Prop :=
  exists w rest,
    Re.symbols (list_ascii_of_string subject) = w ++ rest /\ Re.lang r w.


(** An implementation of [re.compile(s, re.IGNORECASE)] and
    [pattern.match] that reads the patterns of the fragment as the reference
    semantics does: it compiles them, and the compiled pattern matches a
    subject exactly when the subject begins with one of its words. *)
Definition agrees_on_fragment (engine : PyRegex) : Prop :=
  forall s r,
    Re.compile s = Some r ->
    exists p,
      re_compile s = Some p /\
      forall subject, re_match p subject = true <-> starts_with r subject.

(** [".".join(names)]. *)
Fixpoint join_dots (names : list string) : string :=
  match names with
  | [] => EmptyString
  | [n] => n
  | n :: rest => (n ++ "." ++ join_dots rest)%string
  end.

Definition dot_free (n : string) : Prop :=
  ~ In "."%char (list_ascii_of_string n).

(** [child] is what the name [n] is bound to in an attribute table: the
    first binding of [n]. *)
Definition first_binding (attrs : list (string * pyobj)) (n : string)
    (child : pyobj) : Prop :=
  exists before after,
    attrs = before ++ (n, child) :: after /\
    forall kv, In kv before -> fst kv <> n.

(** Attribute access by hand, one name after the other. *)
Inductive reaches : pyobj -> list string -> pyobj -> Prop :=
| reaches_here obj : reaches obj [] obj
| reaches_step shown attrs n child rest v :
    first_binding attrs n child ->
    reaches child rest v ->
    reaches (Obj shown attrs) (n :: rest) v.

(** A command that turns a failure into a user error: it echoes an error
    message and leaves with [typer.Exit] and a nonzero code. *)
Definition handled_as_user_error (c : Cmd unit) : Prop :=
  (exists m, In (EchoError m) (trace c)) /\
  exists code, code <> 0 /\ outcome c = Raise (TyperExit code).



(** ** Inputs for the concrete runs *)

Definition failing_build_env : StartEnv :=
  mkStartEnv (fun _ => Ok false) (fun _ => Ok PyNone).

Definition passing_build_env : StartEnv :=
  mkStartEnv (fun _ => Ok true) (fun _ => Ok PyNone).

(** A service that returns the value [3], and one that leaves through
    [sys.exit(3)]. *)
Definition returning_service_env : StartEnv :=
  mkStartEnv (fun _ => Ok true) (fun _ => Ok (PyInt 3)).

Definition exiting_service_env : StartEnv :=
  mkStartEnv (fun _ => Ok true) (fun _ => Raise (SystemExit (Some (PyInt 3)))).

(** A service stopped from the keyboard. *)
Definition interrupted_service_env : StartEnv :=
  mkStartEnv (fun _ => Ok true) (fun _ => Raise (KeyboardInterrupt None)).

(** The devices of the running example, a plugin store whose only plugin
    has an id that starts with [bgp] and a name that does not, and a small
    parameter tree. *)
Definition example_devices : list NamedEntity :=
  [mkEntity "rtr1" "Router One"; mkEntity "rtr2" "Router Two"].

Definition example_state : State :=
  mkState (fun _type =>
    match _type with
    | InputPlugin => [mkEntity "bgp_route" "Remove Command"]
    | OutputPlugin => []
    end).

Definition example_params : pyobj :=
  Obj "Params"
    [("debug", Obj "False" []);
     ("messages", Obj "Messages" [("no_input", Obj "'required'" [])])].


(** A device whose id is the Kelvin sign, U+212A, followed by [1], before
    one whose id begins with a small [k]. *)
Definition kelvin_one : string :=
  String (Re.byte 226) (String (Re.byte 132) (String (Re.byte 170) "1")).

Definition kelvin_devices : list NamedEntity :=
  [mkEntity kelvin_one "Probe"; mkEntity "k2" "Second"].

Definition three_devices : list NamedEntity :=
  example_devices ++ [mkEntity "rtr3" "Router Three"].

(** ** More vocabulary: what a trace of [start] holds *)

(** The timeouts of the calls to [build_ui], the messages echoed as
    warnings, and the events that echo anything. *)
Definition build_calls (t : list event) : list Z :=
  flat_map (fun ev => match ev with CallBuildUi n => [n] | _ => [] end) t.

Definition warnings (t : list event) : list message :=
  flat_map (fun ev => match ev with EchoWarning m => [m] | _ => [] end) t.

Definition is_echo (ev : event) : bool :=
  match ev with EchoWarning _ | EchoError _ => true | _ => false end.

(** The pattern that the reference engine compiles a string to, for the
    concrete runs. *)
Definition compiled (s : string) : Re.regex :=
  match Re.compile s with
  | Some r => r
  | None => Re.Empty
  end.

(** The panels that a command hands to the console, in order. *)
Definition printed_panels (c : Cmd unit) : list panel :=
  flat_map (fun ev =>
    match ev with
    | ConsolePrint (Single p) => [p]
    | ConsolePrint (Columns items) => items
    | _ => []
    end) (trace c).

(** The plugins that [_plugins] collects under the two flags. *)
Definition fetched_plugins (state : State) (show_input show_output : bool)
  : list NamedEntity :=
  flat_map (fun _type => plugins state _type)
    (if show_input then [InputPlugin]
     else if show_output then [OutputPlugin]
     else [InputPlugin; OutputPlugin]).

(** ** [build-ui] and [clear-cache] *)

(** These two commands report through channels that the commands above do
    not use; their traces are over a wider alphabet. *)
Inductive cli_event : Type :=
| Core (ev : event)
| StatusEnter (text : string) (spinner : string)
| StatusExit
| StateClear
| EchoSuccess (text : string)
| EchoErrorWith (template : string) (arg : exn)
| PrintException (show_locals : bool).

Module Io.

Definition Cmd (A : Type) : Type := list cli_event * result A.

Definition ret {A} (a : A) : Cmd A := ([], Ok a).

Definition bind {A B} (m : Cmd A) (k : A -> Cmd B) : Cmd B :=
  match m with
  | (t, Ok a) => let (t', r) := k a in (t ++ t', r)
  | (t, Raise e) => (t, Raise e)
  end.

Definition emit (ev : cli_event) : Cmd unit := ([ev], Ok tt).

Definition raise {A} (e : exn) : Cmd A := ([], Raise e).

Definition lift {A} (r : result A) : Cmd A := ([], r).

Definition when (b : bool) (c : Cmd unit) : Cmd unit :=
  if b then c else ret tt.

(** [try: m except <catches> as err: handler err]. *)
Definition try_except {A} (m : Cmd A) (catches : exn -> bool)
    (handler : exn -> Cmd A) : Cmd A :=
  match m with
  | (t, Ok a) => (t, Ok a)
  | (t, Raise e) =>
      if catches e then let (t', r) := handler e in (t ++ t', r)
      else (t, Raise e)
  end.

(** [with echo._console.status(text, spinner=spinner): body].  The status
    is left on every path and does not suppress an exception. *)
Definition with_status {A} (text spinner : string) (body : Cmd A) : Cmd A :=
  let (t, r) := body in (StatusEnter text spinner :: t ++ [StatusExit], r).

End Io.

Declare Scope io_scope.
Delimit Scope io_scope with io.
Notation "x <- m ;; k" := (Io.bind m (fun x => k))
  (at level 61, m at next level, right associativity) : io_scope.
Notation "m ;; k" := (Io.bind m (fun _ => k))
  (at level 61, right associativity) : io_scope.

(** The [except Exception] filter: [KeyboardInterrupt] and [SystemExit]
    derive from [BaseException] only. *)
Definition is_exception (e : exn) : bool :=
  match e with
  | KeyboardInterrupt _ | SystemExit _ => false
  | _ => true
  end.

Definition _build_ui (env : StartEnv) (timeout : Z) : Io.Cmd unit :=
  Io.with_status
    ("Starting new UI build with a " ++ py_str (PyInt timeout)
       ++ " second timeout...")%string
    "aesthetic"
    (Io.emit (Core (CallBuildUi timeout)) ;;
     _ <- Io.lift (build_ui env timeout) ;;
     Io.ret tt)%io.

(** What [_clear_cache] meets: the outcome of [state.clear()] and the answer
    of [sys.stdout.isatty()]. *)
Record CacheEnv : Type := mkCacheEnv {
  clear : result unit;
  isatty : bool
}.

Definition _clear_cache (env : CacheEnv) : Io.Cmd unit :=
  Io.try_except
    (Io.emit StateClear ;;
     Io.lift (clear env) ;;
     Io.emit (EchoSuccess "Cleared Redis Cache"))%io
    is_exception
    (fun err =>
       (Io.when (negb (isatty env))
          (Io.emit (PrintException true) ;; Io.raise (TyperExit 1)) ;;
        Io.emit (EchoErrorWith "Error clearing cache: {!s}" err) ;;
        Io.raise (TyperExit 1))%io).

(** The reports of [_clear_cache] in a trace. *)
Definition is_traceback (ev : cli_event) : bool :=
  match ev with PrintException _ => true | _ => false end.

Definition is_error_echo (ev : cli_event) : bool :=
  match ev with EchoErrorWith _ _ => true | _ => false end.

Definition is_success_echo (ev : cli_event) : bool :=
  match ev with EchoSuccess _ => true | _ => false end.

(** Inputs for the concrete runs of these commands. *)
Definition exit_raising_build_env : StartEnv :=
  mkStartEnv (fun _ => Raise (TyperExit 1)) (fun _ => Ok PyNone).

Definition long_exit_service_env : StartEnv :=
  mkStartEnv (fun _ => Ok true) (fun _ => Raise (SystemExit (Some (PyInt 13)))).

(** A service that leaves through [sys.exit] with the euro sign, U+20AC: one
    character, three bytes. *)
Definition euro : string :=
  String (Re.byte 226) (String (Re.byte 130) (String (Re.byte 172) "")).

Definition euro_exit_service_env : StartEnv :=
  mkStartEnv (fun _ => Ok true) (fun _ => Raise (SystemExit (Some (PyStr euro)))).

Definition broken_cache_env : CacheEnv :=
  mkCacheEnv (Raise (OtherError "ConnectionError")) true.

Definition interrupted_cache_env : CacheEnv :=
  mkCacheEnv (Raise (KeyboardInterrupt None)) false.

Definition other_state : State :=
  mkState (fun _type =>
    match _type with
    | InputPlugin => [mkEntity "bgp_route" "Remove Command"]
    | OutputPlugin => [mkEntity "bgp_routing_table" "BGP Routing Table"]
    end).

(** * Properties *)

(** ** The monad *)

Lemma trace_bind {A B} (m : Cmd A) (k : A -> Cmd B) :
  trace (bind m k) =
  match outcome m with
  | Ok a => trace m ++ trace (k a)
  | Raise _ => trace m
  end.
Proof.
  destruct m as [t [a | e]]; simpl; [destruct (k a) |]; reflexivity.
Qed.

Lemma outcome_bind {A B} (m : Cmd A) (k : A -> Cmd B) :
  outcome (bind m k) =
  match outcome m with
  | Ok a => outcome (k a)
  | Raise e => Raise e
  end.
Proof.
  destruct m as [t [a | e]]; simpl; [destruct (k a) |]; reflexivity.
Qed.

Lemma bind_ret_l {A B} (a : A) (k : A -> Cmd B) : bind (ret a) k = k a.
Proof. unfold bind, ret. now destruct (k a). Qed.

(** ** [start] *)

Lemma handler_trace_services err : service_invocations (handler_trace err) = 0%nat.
Proof.
  unfold handler_trace. now destruct (1 <? py_len (exn_str err)).
Qed.

Lemma handler_trace_notices err : interrupt_notices (handler_trace err) = 1%nat.
Proof.
  unfold handler_trace. now destruct (1 <? py_len (exn_str err)).
Qed.

Lemma start_without_build env workers :
  _start env false workers =
  match start_server env workers with
  | Ok _ => ([CallStartServer workers], Ok tt)
  | Raise e =>
      if is_interrupt e
      then (CallStartServer workers :: handler_trace e, Raise (TyperExit 0))
      else ([CallStartServer workers], Raise e)
  end.
Proof.
  unfold _start, call_start_server, lift, emit, bind, ret, try_except,
    handler_trace, raise; simpl.
  destruct (start_server env workers) as [v | e]; simpl; [reflexivity |].
  destruct (is_interrupt e); [| reflexivity].
  now destruct (1 <? py_len (exn_str e)).
Qed.

Lemma start_with_build env workers :
  _start env true workers =
  match build_ui env 180 with
  | Ok false => ([CallBuildUi 180], Ok tt)
  | Ok true =>
      match start_server env workers with
      | Ok _ => ([CallBuildUi 180; CallStartServer workers], Ok tt)
      | Raise e =>
          if is_interrupt e
          then (CallBuildUi 180 :: CallStartServer workers :: handler_trace e,
                Raise (TyperExit 0))
          else ([CallBuildUi 180; CallStartServer workers], Raise e)
      end
  | Raise e =>
      if is_interrupt e
      then (CallBuildUi 180 :: handler_trace e, Raise (TyperExit 0))
      else ([CallBuildUi 180], Raise e)
  end.
Proof.
  unfold _start, call_build_ui, call_start_server, lift, emit, bind, ret,
    try_except, handler_trace, raise; simpl.
  destruct (build_ui env 180) as [[|] | e]; simpl.
  - destruct (start_server env workers) as [v | e]; simpl; [reflexivity |].
    destruct (is_interrupt e); [| reflexivity].
    now destruct (1 <? py_len (exn_str e)).
  - reflexivity.
  - destruct (is_interrupt e); [| reflexivity].
    now destruct (1 <? py_len (exn_str e)).
Qed.

(** C1: when the build is requested and the build step answers false, the
    service entry point is not invoked at all. *)
Theorem start_build_failure_never_serves env workers :
  build_ui env 180 = Ok false ->
  service_invocations (trace (_start env true workers)) = 0%nat /\
  forall w, ~ In (CallStartServer w) (trace (_start env true workers)).
Proof.
  intros Hbuild. rewrite start_with_build, Hbuild. simpl. split; [reflexivity |].
  intros w [H | []]. discriminate H.
Qed.

Lemma start_build_failure_never_serves_witness :
  service_invocations (trace (_start failing_build_env true (Some 4))) = 0%nat /\
  forall w, ~ In (CallStartServer w)
                 (trace (_start failing_build_env true (Some 4))).
Proof.
  apply (start_build_failure_never_serves failing_build_env (Some 4)).
  reflexivity.
Defined.

(** C2: when the build is requested and the build step, called with the
    180 second deadline, answers true, the service entry point is invoked
    exactly once, with the requested worker count, whatever the service does
    afterwards. *)
Theorem start_build_success_serves_once env workers :
  build_ui env 180 = Ok true ->
  service_invocations (trace (_start env true workers)) = 1%nat /\
  exists rest,
    trace (_start env true workers) =
      CallBuildUi 180 :: CallStartServer workers :: rest /\
    service_invocations rest = 0%nat.
Proof.
  intros Hbuild. rewrite start_with_build, Hbuild.
  destruct (start_server env workers) as [v | e]; simpl.
  - split; [reflexivity |]. now exists [].
  - destruct (is_interrupt e); simpl.
    + split.
      * change (S (service_invocations (handler_trace e)) = 1%nat).
        now rewrite handler_trace_services.
      * exists (handler_trace e). split; [reflexivity |].
        apply handler_trace_services.
    + split; [reflexivity |]. now exists [].
Qed.

Lemma start_build_success_serves_once_witness :
  service_invocations (trace (_start passing_build_env true (Some 4))) = 1%nat /\
  exists rest,
    trace (_start passing_build_env true (Some 4)) =
      CallBuildUi 180 :: CallStartServer (Some 4) :: rest /\
    service_invocations rest = 0%nat.
Proof.
  apply (start_build_success_serves_once passing_build_env (Some 4)).
  reflexivity.
Defined.

(** C3, as stated, fails: a build step that answers false leaves [_start]
    through its normal end, which is exit code 0. *)
Lemma start_build_failure_exit_nonzero_counterexample :
  ~ (forall env workers,
        build_ui env 180 = Ok false ->
        exit_status (outcome (_start env true workers)) <> 0).
Proof.
  intros H. now apply (H failing_build_env None).
Qed.

(** C3, amended: when the build is requested and the build step answers
    false, the command calls nothing further, reports nothing and returns
    normally, so that the process ends with exit code 0. *)
Theorem start_build_failure_returns env workers :
  build_ui env 180 = Ok false ->
  _start env true workers = ([CallBuildUi 180], Ok tt) /\
  exit_status (outcome (_start env true workers)) = 0.
Proof.
  intros Hbuild. rewrite start_with_build, Hbuild. now split.
Qed.

Lemma start_build_failure_returns_witness :
  _start failing_build_env true None = ([CallBuildUi 180], Ok tt) /\
  exit_status (outcome (_start failing_build_env true None)) = 0.
Proof.
  apply (start_build_failure_returns failing_build_env None). reflexivity.
Defined.

(** C4, as stated, fails: the value the service returns is dropped, and a
    service that leaves through [sys.exit(3)] is answered with exit code 0. *)
Lemma start_passes_service_code_counterexample :
  ~ (forall env build workers v,
        start_server env workers = Ok v ->
        build = false \/ build_ui env 180 = Ok true ->
        exit_status (outcome (_start env build workers)) = py_exit_code v) /\
  exit_status (outcome (_start exiting_service_env false None)) <> 3.
Proof.
  split.
  - intros H.
    specialize (H returning_service_env false None (PyInt 3) eq_refl
                  (or_introl eq_refl)).
    discriminate H.
  - discriminate.
Qed.

(** C4, amended: when the service entry point is reached and returns,
    whatever value it returns, the command reports nothing, returns normally
    and the process ends with exit code 0. *)
Theorem start_service_return_exits_zero env build workers v :
  start_server env workers = Ok v ->
  build = false \/ build_ui env 180 = Ok true ->
  _start env build workers =
    ((if build then [CallBuildUi 180] else []) ++ [CallStartServer workers],
     Ok tt) /\
  exit_status (outcome (_start env build workers)) = 0.
Proof.
  intros Hserve [-> | Hbuild].
  - rewrite start_without_build, Hserve. now split.
  - destruct build.
    + rewrite start_with_build, Hbuild, Hserve. now split.
    + rewrite start_without_build, Hserve. now split.
Qed.

Lemma start_service_return_exits_zero_witness :
  _start returning_service_env true (Some 2) =
    ([CallBuildUi 180; CallStartServer (Some 2)], Ok tt) /\
  exit_status (outcome (_start returning_service_env true (Some 2))) = 0.
Proof.
  apply (start_service_return_exits_zero returning_service_env true (Some 2)
           (PyInt 3)).
  - reflexivity.
  - right. reflexivity.
Defined.

(** C5: an interrupt ([KeyboardInterrupt] or [SystemExit], with or without
    a message) raised while building or while serving makes the command
    report the fixed interrupt notice exactly once and leave with
    [typer.Exit(0)], exit code 0. *)
Theorem start_interrupt_stops_cleanly env build workers e :
  is_interrupt e = true ->
  raised_while_building env build e \/
  raised_while_serving env build workers e ->
  interrupt_notices (trace (_start env build workers)) = 1%nat /\
  outcome (_start env build workers) = Raise (TyperExit 0) /\
  exit_status (outcome (_start env build workers)) = 0.
Proof.
  intros Hint Hstage.
  assert (Hn : forall pre,
             interrupt_notices pre = 0%nat ->
             interrupt_notices (pre ++ handler_trace e) = 1%nat).
  { intros pre Hpre. unfold interrupt_notices in *.
    rewrite filter_app, length_app, Hpre. apply handler_trace_notices. }
  destruct Hstage as [[-> Hbuild] | [[-> | Hbuild] Hserve]].
  - rewrite start_with_build, Hbuild, Hint. simpl.
    split; [apply (Hn [CallBuildUi 180]); reflexivity | now split].
  - rewrite start_without_build, Hserve, Hint. simpl.
    split; [apply (Hn [CallStartServer workers]); reflexivity | now split].
  - destruct build.
    + rewrite start_with_build, Hbuild, Hserve, Hint. simpl.
      split; [| now split].
      apply (Hn [CallBuildUi 180; CallStartServer workers]); reflexivity.
    + rewrite start_without_build, Hserve, Hint. simpl.
      split; [apply (Hn [CallStartServer workers]); reflexivity | now split].
Qed.

Lemma start_interrupt_stops_cleanly_witness :
  interrupt_notices (trace (_start interrupted_service_env true None)) = 1%nat /\
  outcome (_start interrupted_service_env true None) = Raise (TyperExit 0) /\
  exit_status (outcome (_start interrupted_service_env true None)) = 0.
Proof.
  apply (start_interrupt_stops_cleanly interrupted_service_env true None
           (KeyboardInterrupt None)).
  - reflexivity.
  - right. split; [right |]; reflexivity.
Defined.

(** ** The reference engine *)

Module ReFacts.
Import Re.

Lemma lang_nil_app r1 r2 w1 w2 :
  w1 ++ w2 = [] -> lang r1 w1 -> lang r2 w2 -> lang r1 [] /\ lang r2 [].
Proof.
  intros Heq H1 H2. apply app_eq_nil in Heq. destruct Heq as [-> ->].
  now split.
Qed.

Lemma nullable_sound r : nullable r = true -> lang r [].
Proof.
  induction r; simpl; intros Hn; try discriminate.
  - constructor.
  - apply andb_true_iff in Hn. destruct Hn as [H1 H2].
    change (@nil ascii) with (@nil ascii ++ []). constructor; auto.
  - apply orb_true_iff in Hn.
    destruct Hn; [apply lang_alt_l | apply lang_alt_r]; auto.
  - constructor.
Qed.

Lemma nullable_complete r w : lang r w -> w = [] -> nullable r = true.
Proof.
  induction 1; intros Hnil; simpl; try discriminate; try reflexivity.
  - apply app_eq_nil in Hnil. destruct Hnil as [-> ->].
    now rewrite IHlang1, IHlang2.
  - now rewrite IHlang.
  - rewrite IHlang by assumption. apply orb_true_r.
Qed.

Lemma nullable_spec r : nullable r = true <-> lang r [].
Proof.
  split; [apply nullable_sound |]. intros H. now apply (nullable_complete r []).
Qed.

Lemma deriv_sound c r : forall w, lang (deriv c r) w -> lang r (c :: w).
Proof.
  induction r; simpl; intros w H.
  - inversion H.
  - inversion H.
  - destruct (ci_eqb a c) eqn:Hc; inversion H; subst. now constructor.
  - destruct (Ascii.eqb c newline) eqn:Hc; inversion H; subst. now constructor.
  - destruct (nullable r1) eqn:Hn.
    + inversion H as [| | | | ? ? ? H' | ? ? ? H' | |]; subst.
      * inversion H'; subst.
        change (c :: w1 ++ w2) with ((c :: w1) ++ w2). constructor; auto.
      * change (c :: w) with ([] ++ c :: w).
        constructor; [now apply nullable_sound | auto].
    + inversion H; subst.
      change (c :: w1 ++ w2) with ((c :: w1) ++ w2). constructor; auto.
  - inversion H; subst; [apply lang_alt_l | apply lang_alt_r]; auto.
  - inversion H; subst.
    change (c :: w1 ++ w2) with ((c :: w1) ++ w2). constructor; auto.
Qed.

Lemma deriv_complete r u :
  lang r u -> forall c w, u = c :: w -> lang (deriv c r) w.
Proof.
  induction 1; intros c' w' Heq; simpl; try discriminate.
  - injection Heq as -> <-. rewrite H. constructor.
  - injection Heq as -> <-. rewrite H. constructor.
  - destruct w1 as [| a w1]; simpl in Heq.
    + subst w2. rewrite (nullable_complete r1 [] H eq_refl).
      apply lang_alt_r. now apply IHlang2.
    + injection Heq as -> <-.
      assert (Hs : lang (Seq (deriv c' r1) r2) (w1 ++ w2))
        by (constructor; auto).
      destruct (nullable r1); [now apply lang_alt_l | exact Hs].
  - apply lang_alt_l. now apply IHlang.
  - apply lang_alt_r. now apply IHlang.
  - destruct w1 as [| a w1]; simpl in Heq.
    + subst w2. now apply (IHlang2 c' w').
    + injection Heq as -> <-. constructor; auto.
Qed.

Lemma deriv_spec c r w : lang (deriv c r) w <-> lang r (c :: w).
Proof.
  split; [apply deriv_sound |]. intros H. now apply (deriv_complete r (c :: w)).
Qed.

(** [match_prefix] is anchored at the start: it answers whether the subject
    begins with a word of the pattern. *)
Lemma match_prefix_anchored r t :
  match_prefix r t = true <-> exists w rest, t = w ++ rest /\ lang r w.
Proof.
  revert r. induction t as [| c t IH]; intros r; simpl.
  - rewrite orb_false_r, nullable_spec. split.
    + intros H. now exists [], [].
    + intros (w & rest & Heq & H). symmetry in Heq.
      apply app_eq_nil in Heq. destruct Heq as [-> _]. exact H.
  - rewrite orb_true_iff, nullable_spec, IH. split.
    + intros [H | (w & rest & -> & H)].
      * now exists [], (c :: t).
      * exists (c :: w), rest. split; [reflexivity | now apply deriv_spec].
    + intros (w & rest & Heq & H). destruct w as [| a w]; [now left |].
      injection Heq as <- ->. right. exists w, rest.
      split; [reflexivity | now apply deriv_spec].
Qed.



Lemma step_literal c st :
  literal_char c = true -> step c st = Some (push (Chr c) st).
Proof.
  destruct c as [[] [] [] [] [] [] [] []]; intros H;
    solve [discriminate H | reflexivity].
Qed.

Lemma parse_literal s : forall st,
  stack st = [] ->
  forallb literal_char (list_ascii_of_string s) = true ->
  parse s st =
    Some (close (mkFrame (alts (cur st))
                   (rev (map Chr (list_ascii_of_string s)) ++ items (cur st)))).
Proof.
  induction s as [| c s IH]; intros st Hstack Hlit.
  - simpl. rewrite Hstack. now destruct st as [[? ?] ? ?].
  - simpl in Hlit. apply andb_true_iff in Hlit. destruct Hlit as [Hc Hs].
    cbn [parse]. rewrite (step_literal c st Hc).
    rewrite (IH (push (Chr c) st) Hstack Hs). simpl.
    now rewrite <- app_assoc.
Qed.

(** A pattern made of literal characters compiles to their sequence. *)
Lemma compile_literal s :
  forallb literal_char (list_ascii_of_string s) = true ->
  compile s = Some (fold_right Seq Eps (map Chr (list_ascii_of_string s))).
Proof.
  intros Hlit. unfold compile.
  rewrite (parse_literal s (mkPstate (mkFrame [] []) [] NothingYet) eq_refl Hlit).
  simpl. rewrite app_nil_r. unfold close, seq_of. simpl.
  rewrite <- (rev_involutive (map Chr (list_ascii_of_string s))) at 2.
  now rewrite fold_left_rev_right.
Qed.

Lemma literal_starts l : forall t,
  ci_prefix l t = true <->
  exists w rest, t = w ++ rest /\ lang (fold_right Seq Eps (map Chr l)) w.
Proof.
  induction l as [| a l IH]; intros t; simpl.
  - split; [intros _ | reflexivity]. exists [], t. split; [reflexivity | constructor].
  - split.
    + destruct t as [| c t]; [discriminate |]. intros H.
      apply andb_true_iff in H. destruct H as [Hc Hl].
      apply IH in Hl. destruct Hl as (w & rest & -> & Hw).
      exists ([c] ++ w), rest. split; [reflexivity |].
      constructor; [now constructor | exact Hw].
    + intros (w & rest & -> & Hw). inversion Hw as [| | | ? ? w1 w2 H1 H2 | | | |].
      subst. inversion H1; subst. simpl.
      apply andb_true_iff. split; [assumption |].
      apply IH. now exists w2, rest.
Qed.

(** For a pattern made of literal characters the search is a starts-with
    test that ignores the case of letters. *)
Lemma matches_literal s t :
  forallb literal_char (list_ascii_of_string s) = true ->
  exists p,
    compile s = Some p /\
    matches p t =
      ci_prefix (list_ascii_of_string s) (symbols (list_ascii_of_string t)).
Proof.
  intros Hlit. eexists. split; [now apply compile_literal |].
  unfold matches. apply eq_true_iff_eq.
  now rewrite match_prefix_anchored, literal_starts.
Qed.

(** The matcher of the reference engine decides [starts_with]. *)
Lemma matches_starts_with r subject :
  matches r subject = true <-> starts_with r subject.
Proof. unfold matches, starts_with. apply match_prefix_anchored. Qed.


Lemma fragment_engine_agrees : agrees_on_fragment fragment_engine.
Proof.
  intros s r Hr. exists r. split; [exact Hr |].
  intros subject. apply matches_starts_with.
Qed.

(** [len] counts what the engine reads: one symbol per character. *)
Lemma py_len_symbols s :
  py_len s = Z.of_nat (length (symbols (list_ascii_of_string s))).
Proof.
  unfold py_len. f_equal.
  induction (list_ascii_of_string s) as [| b rest IH]; [reflexivity |].
  cbn [filter symbols].
  destruct (nat_of_ascii b <? 128)%nat eqn:Hlow.
  - assert (Hc : is_continuation b = false).
    { unfold is_continuation. apply Nat.ltb_lt in Hlow.
      replace (128 <=? nat_of_ascii b)%nat with false
        by (symmetry; apply Nat.leb_gt; lia).
      reflexivity. }
    rewrite Hc. cbn [negb length]. now f_equal.
  - destruct (is_continuation b); cbn [negb length]; [exact IH | now f_equal].
Qed.

End ReFacts.

(** ** Pattern search *)

Section SearchFacts.
Context {engine : PyRegex}.

Lemma compile_ok s p : re_compile s = Some p -> compile s = ret p.
Proof. unfold compile. now intros ->. Qed.

Lemma compile_error s : re_compile s = None -> compile s = raise ReError.
Proof. unfold compile. now intros ->. Qed.

Lemma scan_without_match p entities :
  (forall e, In e entities -> id_or_name_matches p e = false) ->
  for_each entities (fun entity =>
    when (id_or_name_matches p entity)
      (emit (ConsolePrint (Single (Inspect entity (name entity)))) ;;
       raise (TyperExit 0))) = ([], Ok tt).
Proof.
  induction entities as [| e rest IH]; intros Hnone; [reflexivity |].
  cbn [for_each]. unfold when at 1.
  rewrite (Hnone e (or_introl eq_refl)), bind_ret_l.
  apply IH. intros e' He'. apply Hnone. now right.
Qed.




(** C10: a devices or directives search whose pattern matches neither the
    id nor the name of any entity reports no error: the command prints
    every entity of the collection and returns, exit code 0. *)
Theorem search_without_match_lists_all s p entities :
  re_compile s = Some p ->
  (forall e, In e entities ->
     re_match p (id e) = false /\ re_match p (name e) = false) ->
  _devices entities (Some s) =
    ([ConsolePrint (Columns (map (fun e => Inspect e (name e)) entities))],
     Ok tt) /\
  _directives entities (Some s) =
    ([ConsolePrint (Columns (map (fun e => Inspect e (name e)) entities))],
     Ok tt) /\
  exit_status (outcome (_devices entities (Some s))) = 0 /\
  exit_status (outcome (_directives entities (Some s))) = 0.
Proof.
  intros Hp Hnone.
  assert (Hnone' : forall e, In e entities -> id_or_name_matches p e = false).
  { intros e He. destruct (Hnone e He) as [Hi Hn].
    unfold id_or_name_matches. now rewrite Hi, Hn. }
  pose proof (scan_without_match p entities Hnone') as Hscan.
  assert (Hd : _devices entities (Some s) =
    ([ConsolePrint (Columns (map (fun e => Inspect e (name e)) entities))],
     Ok tt)).
  { unfold _devices. rewrite (compile_ok s p Hp), bind_ret_l. cbv beta.
    now rewrite Hscan. }
  assert (Hr : _directives entities (Some s) =
    ([ConsolePrint (Columns (map (fun e => Inspect e (name e)) entities))],
     Ok tt)).
  { unfold _directives. rewrite (compile_ok s p Hp), bind_ret_l. cbv beta.
    now rewrite Hscan. }
  rewrite Hd, Hr. now repeat split.
Qed.

(** C8, amended: a search string that does not compile makes devices,
    directives and plugins print and report nothing; the compile error
    leaves the command handler unhandled, and the process ends with exit
    code 1. *)
Theorem search_malformed_pattern_propagates s entities state
    show_input show_output :
  re_compile s = None ->
  _devices entities (Some s) = ([], Raise ReError) /\
  _directives entities (Some s) = ([], Raise ReError) /\
  _plugins state (Some s) show_input show_output = ([], Raise ReError) /\
  exit_status (Raise ReError : result unit) = 1.
Proof.
  intros Hp. unfold _devices, _directives, _plugins.
  rewrite (compile_error s Hp). now repeat split.
Qed.

(** What a plugins search does: it keeps, in collection order, the plugins
    whose name matches, and reports the no-match error when none does. *)
Lemma plugins_search_by_name s p state (show_input show_output : bool) :
  re_compile s = Some p ->
  let all_plugins :=
    flat_map (fun _type => plugins state _type)
      (if show_input then [InputPlugin]
       else if show_output then [OutputPlugin]
       else [InputPlugin; OutputPlugin]) in
  let matching := filter (fun plugin => re_match p (name plugin)) all_plugins in
  _plugins state (Some s) show_input show_output =
    match matching with
    | [] => ([EchoError (no_plugins_matching s)], Raise (TyperExit 1))
    | _ :: _ =>
        ([ConsolePrint (Columns (map Plugin matching))], Raise (TyperExit 0))
    end.
Proof.
  intros Hp. cbv zeta. unfold _plugins.
  rewrite (compile_ok s p Hp), bind_ret_l. cbv beta zeta.
  now destruct (filter (fun plugin => re_match p (name plugin)) _).
Qed.

End SearchFacts.


Lemma search_without_match_lists_all_witness :
  _devices example_devices (Some "two") =
    ([ConsolePrint
        (Columns [Inspect (mkEntity "rtr1" "Router One") "Router One";
                  Inspect (mkEntity "rtr2" "Router Two") "Router Two"])],
     Ok tt) /\
  _directives example_devices (Some "two") =
    ([ConsolePrint
        (Columns [Inspect (mkEntity "rtr1" "Router One") "Router One";
                  Inspect (mkEntity "rtr2" "Router Two") "Router Two"])],
     Ok tt) /\
  exit_status (outcome (_devices example_devices (Some "two"))) = 0 /\
  exit_status (outcome (_directives example_devices (Some "two"))) = 0.
Proof.
  eapply (search_without_match_lists_all (engine := fragment_engine) "two" _
            example_devices).
  - vm_compute. reflexivity.
  - intros e [<- | [<- | []]]; split; reflexivity.
Defined.

(** C8, as stated, fails: the unbalanced pattern does not compile, and
    [_devices], [_directives] and [_plugins] let the compile error through
    without a word. *)
Lemma search_malformed_pattern_counterexample :
  re_compile "(" = None /\
  ~ handled_as_user_error (_devices example_devices (Some "(")) /\
  ~ handled_as_user_error (_directives example_devices (Some "(")) /\
  ~ handled_as_user_error (_plugins example_state (Some "(") false false) /\
  outcome (_devices example_devices (Some "(")) = Raise ReError.
Proof.
  split; [reflexivity |].
  repeat split; try (intros [[m []] _]).
Qed.

Lemma search_malformed_pattern_propagates_witness :
  _devices example_devices (Some "a**") = ([], Raise ReError) /\
  _directives example_devices (Some "a**") = ([], Raise ReError) /\
  _plugins example_state (Some "a**") true false = ([], Raise ReError) /\
  exit_status (Raise ReError : result unit) = 1.
Proof.
  apply (search_malformed_pattern_propagates (engine := fragment_engine) "a**"
           example_devices example_state true false).
  reflexivity.
Defined.

(** C7 at the failing input: the only plugin has an id that the pattern
    matches and a name that it does not; the search tests the name alone,
    finds nothing and leaves with the no-match error and exit code 1. *)
Theorem plugins_search_misses_id_match :
  exists p,
    re_compile "bgp" = Some p /\
    re_match p (id (mkEntity "bgp_route" "Remove Command")) = true /\
    _plugins example_state (Some "bgp") false false =
      ([EchoError [FText "No plugins matching "; FRepr "bgp"]],
       Raise (TyperExit 1)).
Proof.
  eexists. split; [vm_compute; reflexivity |]. split; reflexivity.
Qed.

(** ** [params] *)

Lemma py_split_nonempty sep s : py_split sep s <> [].
Proof.
  destruct s as [| c rest]; simpl; [discriminate |].
  destruct (Ascii.eqb c sep); [discriminate |].
  destruct (py_split sep rest); discriminate.
Qed.

(** Splitting distributes over a separator between two strings. *)
Lemma py_split_app sep s t :
  py_split sep (s ++ String sep t)%string = py_split sep s ++ py_split sep t.
Proof.
  induction s as [| c s IH]; simpl.
  - now rewrite Ascii.eqb_refl.
  - destruct (Ascii.eqb c sep); [now rewrite IH |].
    rewrite IH. pose proof (py_split_nonempty sep s) as Hne.
    destruct (py_split sep s); [contradiction | reflexivity].
Qed.


Lemma getattr_cases obj attr :
  (exists v, getattr obj attr = Ok v) \/ getattr obj attr = Raise AttributeError.
Proof.
  destruct obj as [shown attrs]. simpl.
  destruct (find _ attrs); [left; eauto | now right].
Qed.


Lemma resolve_names_cases names : forall obj,
  (exists v, resolve_names names obj = Ok v) \/
  resolve_names names obj = Raise AttributeError.
Proof.
  induction names as [| n rest IH]; intros obj; simpl; [left; eauto |].
  destruct (getattr_cases obj n) as [[child ->] | ->]; [apply IH | now right].
Qed.

Lemma resolve_names_app done rest : forall obj,
  resolve_names (done ++ rest) obj =
  match resolve_names done obj with
  | Ok mid => resolve_names rest mid
  | Raise e => Raise e
  end.
Proof.
  induction done as [| n done IH]; intros obj; simpl; [reflexivity |].
  destruct (getattr obj n); [apply IH | reflexivity].
Qed.



Lemma params_with_path params path :
  _params params (Some path) =
  match attrgetter path params with
  | Ok value =>
      ([ConsolePrint (Single (InspectValue value ("params." ++ path)))],
       Raise (TyperExit 0))
  | Raise e =>
      if is_attribute_error e
      then ([EchoError (does_not_exist path)], Raise (TyperExit 1))
      else ([], Raise e)
  end.
Proof.
  unfold _params, lift, emit, raise, bind, try_except.
  destruct (attrgetter path params) as [value | e]; simpl; [reflexivity |].
  now destruct (is_attribute_error e).
Qed.



(** * Further properties *)

(** ** [start]: the gate, the handler and what escapes *)

Lemma handler_trace_builds err : build_calls (handler_trace err) = [].
Proof.
  unfold handler_trace. now destruct (1 <? py_len (exn_str err)).
Qed.

Lemma handler_trace_warnings err :
  warnings (handler_trace err) =
  if 1 <? py_len (exn_str err) then [[FText (exn_str err)]] else [].
Proof.
  unfold handler_trace. now destruct (1 <? py_len (exn_str err)).
Qed.

(** X1: the service entry point is invoked once when no build is requested
    or the build answers true, and not at all otherwise: neither after a
    false answer nor after a build that raises, interrupt or not. *)
Theorem start_serves_iff_gate_open env build workers :
  service_invocations (trace (_start env build workers)) =
  if build
  then match build_ui env 180 with Ok true => 1%nat | _ => 0%nat end
  else 1%nat.
Proof.
  destruct build.
  - rewrite start_with_build.
    destruct (build_ui env 180) as [[|] | e].
    + destruct (start_server env workers) as [v | e]; [reflexivity |].
      destruct (is_interrupt e); [| reflexivity].
      change (S (service_invocations (handler_trace e)) = 1%nat).
      now rewrite handler_trace_services.
    + reflexivity.
    + destruct (is_interrupt e); [| reflexivity].
      change (service_invocations (handler_trace e) = 0%nat).
      apply handler_trace_services.
  - rewrite start_without_build.
    destruct (start_server env workers) as [v | e]; [reflexivity |].
    destruct (is_interrupt e); [| reflexivity].
    change (S (service_invocations (handler_trace e)) = 1%nat).
    now rewrite handler_trace_services.
Qed.

(** X2: the build step is called exactly once, with the timeout 180, when
    the build is requested, and never when it is not, whatever the
    collaborators do. *)
Theorem start_build_calls env build workers :
  build_calls (trace (_start env build workers)) =
  if build then [180] else [].
Proof.
  destruct build.
  - rewrite start_with_build.
    destruct (build_ui env 180) as [[|] | e].
    + destruct (start_server env workers) as [v | e]; [reflexivity |].
      destruct (is_interrupt e); [| reflexivity].
      change (180 :: build_calls (handler_trace e) = [180]).
      now rewrite handler_trace_builds.
    + reflexivity.
    + destruct (is_interrupt e); [| reflexivity].
      change (180 :: build_calls (handler_trace e) = [180]).
      now rewrite handler_trace_builds.
  - rewrite start_without_build.
    destruct (start_server env workers) as [v | e]; [reflexivity |].
    destruct (is_interrupt e); [| reflexivity].
    change (build_calls (handler_trace e) = []).
    apply handler_trace_builds.
Qed.

(** X3: an exception other than [KeyboardInterrupt] and [SystemExit] raised
    by the build step or by the service leaves [_start] unchanged and
    without any echo; a [typer.Exit] raised by the build keeps its code. *)
Theorem start_other_exception_propagates env build workers e :
  is_interrupt e = false ->
  raised_while_building env build e \/
  raised_while_serving env build workers e ->
  outcome (_start env build workers) = Raise e /\
  filter is_echo (trace (_start env build workers)) = [].
Proof.
  intros Hint [[-> Hbuild] | [[-> | Hbuild] Hserve]].
  - rewrite start_with_build, Hbuild, Hint. now split.
  - rewrite start_without_build, Hserve, Hint. now split.
  - destruct build.
    + rewrite start_with_build, Hbuild, Hserve, Hint. now split.
    + rewrite start_without_build, Hserve, Hint. now split.
Qed.

Lemma start_other_exception_propagates_witness :
  outcome (_start exit_raising_build_env true None) = Raise (TyperExit 1) /\
  filter is_echo (trace (_start exit_raising_build_env true None)) = [].
Proof.
  apply (start_other_exception_propagates exit_raising_build_env true None
           (TyperExit 1)).
  - reflexivity.
  - left. split; reflexivity.
Defined.

(** X4: when an interrupt stops [start], its text is echoed as a warning
    exactly when it is longer than one character, and the fixed notice is
    the last thing reported. *)
Theorem start_interrupt_warning env build workers e :
  is_interrupt e = true ->
  raised_while_building env build e \/
  raised_while_serving env build workers e ->
  warnings (trace (_start env build workers)) =
    (if 1 <? py_len (exn_str e) then [[FText (exn_str e)]] else []) /\
  exists before,
    trace (_start env build workers) = before ++ [EchoError interrupt_notice].
Proof.
  intros Hint Hstage.
  assert (Hlast : forall pre, exists before,
             pre ++ handler_trace e = before ++ [EchoError interrupt_notice]).
  { intros pre. unfold handler_trace. rewrite app_assoc. eauto. }
  destruct Hstage as [[-> Hbuild] | [[-> | Hbuild] Hserve]].
  - rewrite start_with_build, Hbuild, Hint. split.
    + apply handler_trace_warnings.
    + apply (Hlast [CallBuildUi 180]).
  - rewrite start_without_build, Hserve, Hint. split.
    + apply handler_trace_warnings.
    + apply (Hlast [CallStartServer workers]).
  - destruct build.
    + rewrite start_with_build, Hbuild, Hserve, Hint. split.
      * apply handler_trace_warnings.
      * apply (Hlast [CallBuildUi 180; CallStartServer workers]).
    + rewrite start_without_build, Hserve, Hint. split.
      * apply handler_trace_warnings.
      * apply (Hlast [CallStartServer workers]).
Qed.

Lemma start_interrupt_warning_witness :
  warnings (trace (_start long_exit_service_env false (Some 2))) =
    [[FText "13"]] /\
  exists before,
    trace (_start long_exit_service_env false (Some 2)) =
      before ++ [EchoError interrupt_notice].
Proof.
  apply (start_interrupt_warning long_exit_service_env false (Some 2)
           (SystemExit (Some (PyInt 13)))).
  - reflexivity.
  - right. split; [left |]; reflexivity.
Defined.

(** A message of one character is not echoed, also when the character takes
    several bytes. *)
Lemma start_one_character_interrupt :
  py_len euro = 1 /\
  warnings (trace (_start euro_exit_service_env false None)) = [].
Proof. split; reflexivity. Qed.

(** X5: [start] never ends with a nonzero exit code of its own making: a
    nonzero exit code means that the build step or the service raised an
    exception other than an interrupt, which left the command as it was. *)
Theorem start_nonzero_exit_is_propagated env build workers :
  exit_status (outcome (_start env build workers)) <> 0 ->
  exists e,
    is_interrupt e = false /\
    outcome (_start env build workers) = Raise e /\
    (raised_while_building env build e \/
     raised_while_serving env build workers e).
Proof.
  unfold raised_while_building, raised_while_serving.
  destruct build.
  - rewrite start_with_build.
    destruct (build_ui env 180) as [[|] | e] eqn:Hbuild.
    + destruct (start_server env workers) as [v | e] eqn:Hserve.
      * intros H. now contradiction H.
      * destruct (is_interrupt e) eqn:Hint.
        -- intros H. now contradiction H.
        -- intros _. exists e. repeat split; auto.
    + intros H. now contradiction H.
    + destruct (is_interrupt e) eqn:Hint.
      * intros H. now contradiction H.
      * intros _. exists e. repeat split; auto.
  - rewrite start_without_build.
    destruct (start_server env workers) as [v | e] eqn:Hserve.
    + intros H. now contradiction H.
    + destruct (is_interrupt e) eqn:Hint.
      * intros H. now contradiction H.
      * intros _. exists e. repeat split; auto.
Qed.

Lemma start_nonzero_exit_is_propagated_witness :
  exists e,
    is_interrupt e = false /\
    outcome (_start exit_raising_build_env true None) = Raise e /\
    (raised_while_building exit_raising_build_env true e \/
     raised_while_serving exit_raising_build_env true None e).
Proof.
  apply (start_nonzero_exit_is_propagated exit_raising_build_env true None).
  discriminate.
Defined.

(** ** Pattern search: the loop as a lookup *)

Lemma find_ext {A} (f g : A -> bool) (l : list A) :
  (forall x, f x = g x) -> find f l = find g l.
Proof.
  intros Hfg. induction l as [| x l IH]; simpl; [reflexivity |].
  now rewrite Hfg, IH.
Qed.

Section SearchLookup.
Context {engine : PyRegex}.

(** The search loop answers what [find] answers. *)
Lemma scan_find p entities :
  for_each entities (fun entity =>
    when (id_or_name_matches p entity)
      (emit (ConsolePrint (Single (Inspect entity (name entity)))) ;;
       raise (TyperExit 0))) =
  match find (id_or_name_matches p) entities with
  | Some hit =>
      ([ConsolePrint (Single (Inspect hit (name hit)))], Raise (TyperExit 0))
  | None => ([], Ok tt)
  end.
Proof.
  induction entities as [| e rest IH]; cbn [for_each find]; [reflexivity |].
  unfold when at 1. destruct (id_or_name_matches p e); [reflexivity |].
  rewrite bind_ret_l. exact IH.
Qed.

Lemma devices_with_pattern s p devices :
  re_compile s = Some p ->
  _devices devices (Some s) =
  match find (id_or_name_matches p) devices with
  | Some hit =>
      ([ConsolePrint (Single (Inspect hit (name hit)))], Raise (TyperExit 0))
  | None =>
      ([ConsolePrint (Columns (map (fun e => Inspect e (name e)) devices))],
       Ok tt)
  end.
Proof.
  intros Hp. unfold _devices. rewrite (compile_ok s p Hp), bind_ret_l.
  cbv beta. rewrite scan_find.
  now destruct (find (id_or_name_matches p) devices).
Qed.

Lemma directives_with_pattern s p directives :
  re_compile s = Some p ->
  _directives directives (Some s) =
  match find (id_or_name_matches p) directives with
  | Some hit =>
      ([ConsolePrint (Single (Inspect hit (name hit)))], Raise (TyperExit 0))
  | None =>
      ([ConsolePrint (Columns (map (fun e => Inspect e (name e)) directives))],
       Ok tt)
  end.
Proof.
  intros Hp. unfold _directives. rewrite (compile_ok s p Hp), bind_ret_l.
  cbv beta. rewrite scan_find.
  now destruct (find (id_or_name_matches p) directives).
Qed.

(** X6: with a pattern that compiles, a devices or directives search ends in
    one of two ways, decided by a lookup of the first entity whose id or name
    matches: that entity alone is printed and the command leaves with exit
    code 0, or the whole collection is listed and the command returns. *)
Theorem search_is_first_lookup s p entities :
  re_compile s = Some p ->
  let answer :=
    match find (fun e => re_match p (id e) || re_match p (name e)) entities with
    | Some hit =>
        ([ConsolePrint (Single (Inspect hit (name hit)))], Raise (TyperExit 0))
    | None =>
        ([ConsolePrint (Columns (map (fun e => Inspect e (name e)) entities))],
         Ok tt)
    end in
  _devices entities (Some s) = answer /\
  _directives entities (Some s) = answer /\
  exit_status (outcome (_devices entities (Some s))) = 0.
Proof.
  intros Hp answer. subst answer.
  rewrite (devices_with_pattern s p entities Hp).
  rewrite (directives_with_pattern s p entities Hp).
  unfold id_or_name_matches.
  now destruct (find _ entities).
Qed.

(** X7: a search never shows an entity from outside the collection or one
    that does not match: a single panel in the output is an entity of the
    collection whose id or name matches, under its own name as title. *)
Theorem search_prints_member s p entities e title :
  re_compile s = Some p ->
  In (ConsolePrint (Single (Inspect e title)))
     (trace (_devices entities (Some s))) ->
  In e entities /\
  (re_match p (id e) = true \/ re_match p (name e) = true) /\
  title = name e.
Proof.
  intros Hp. rewrite (devices_with_pattern s p entities Hp).
  destruct (find (id_or_name_matches p) entities) as [hit |] eqn:Hfind.
  - intros [Hev | []]. injection Hev as <- <-.
    apply find_some in Hfind. destruct Hfind as [Hin Hm].
    unfold id_or_name_matches in Hm. apply orb_true_iff in Hm. now repeat split.
  - intros [Hev | []]. discriminate Hev.
Qed.

Lemma plugins_search_cases s p state (show_input show_output : bool) :
  re_compile s = Some p ->
  _plugins state (Some s) show_input show_output =
    match filter (fun plugin => re_match p (name plugin))
            (fetched_plugins state show_input show_output) with
    | [] => ([EchoError (no_plugins_matching s)], Raise (TyperExit 1))
    | hit :: more =>
        ([ConsolePrint
            (Columns (map Plugin
               (filter (fun plugin => re_match p (name plugin))
                  (fetched_plugins state show_input show_output))))],
         Raise (TyperExit 0))
    end.
Proof.
  intros Hp. unfold _plugins, fetched_plugins.
  rewrite (compile_ok s p Hp), bind_ret_l. cbv beta zeta.
  now destruct (filter (fun plugin => re_match p (name plugin)) _).
Qed.

(** X8: a plugins search with a pattern that compiles shows the plugins
    whose name matches, in collection order, and leaves with exit code 0; it
    reports the no-match error and leaves with exit code 1 exactly when no
    name matches; it never falls through to the full listing. *)
Theorem plugins_search_outcome s p state (show_input show_output : bool) :
  re_compile s = Some p ->
  let matching :=
    filter (fun plugin => re_match p (name plugin))
      (fetched_plugins state show_input show_output) in
  let run := _plugins state (Some s) show_input show_output in
  printed_panels run = map Plugin matching /\
  (matching = [] <-> exit_status (outcome run) = 1) /\
  (matching = [] <-> In (EchoError (no_plugins_matching s)) (trace run)) /\
  (matching <> [] <-> outcome run = Raise (TyperExit 0)) /\
  outcome run <> Ok tt.
Proof.
  intros Hp matching run. subst run.
  rewrite (plugins_search_cases s p state show_input show_output Hp).
  fold matching. destruct matching as [| hit more] eqn:Hm.
  - unfold printed_panels. simpl. repeat split; try easy.
    + intros _. now left.
  - unfold printed_panels. simpl. rewrite app_nil_r.
    repeat split; try easy.
    intros [H | []]. discriminate H.
Qed.

(** X9: with [--input] the command depends on the input plugins alone,
    whether or not [--output] is given as well; with [--output] alone it
    depends on the output plugins alone. *)
Theorem plugins_flags_select state state' search show_output show_output' :
  (plugins state InputPlugin = plugins state' InputPlugin ->
   _plugins state search true show_output =
   _plugins state' search true show_output') /\
  (plugins state OutputPlugin = plugins state' OutputPlugin ->
   _plugins state search false true = _plugins state' search false true).
Proof.
  split; intros H; unfold _plugins; cbn [flat_map]; now rewrite H.
Qed.

(** X10: without a flag the panels shown are those of [--input] followed
    by those of [--output], with or without a search pattern. *)
Theorem plugins_unrestricted_is_union state search :
  printed_panels (_plugins state search false false) =
  printed_panels (_plugins state search true false) ++
  printed_panels (_plugins state search false true).
Proof.
  destruct search as [s |].
  - destruct (re_compile s) as [p |] eqn:Hp.
    + rewrite !(plugins_search_cases s p state _ _ Hp).
      unfold fetched_plugins. cbn [flat_map]. rewrite !app_nil_r.
      rewrite filter_app.
      destruct (filter _ (plugins state InputPlugin)) as [| a l];
        destruct (filter _ (plugins state OutputPlugin)) as [| b m];
        unfold printed_panels; simpl; rewrite ?app_nil_r, ?map_app;
        reflexivity.
    + unfold _plugins. now rewrite (compile_error s Hp).
  - unfold _plugins, printed_panels. simpl.
    now rewrite !app_nil_r, map_app.
Qed.

End SearchLookup.

Lemma search_is_first_lookup_witness :
  let answer :=
    ([ConsolePrint (Single (Inspect (mkEntity "rtr1" "Router One") "Router One"))],
     Raise (TyperExit 0)) in
  _devices three_devices (Some "r(ou)?t") = answer /\
  _directives three_devices (Some "r(ou)?t") = answer /\
  exit_status (outcome (_devices three_devices (Some "r(ou)?t"))) = 0.
Proof.
  apply (search_is_first_lookup (engine := fragment_engine) "r(ou)?t"
           (compiled "r(ou)?t") three_devices).
  reflexivity.
Defined.

Lemma search_prints_member_witness :
  In (mkEntity "rtr2" "Router Two") three_devices /\
  (Re.matches (compiled "rtr2") "rtr2" = true \/
   Re.matches (compiled "rtr2") "Router Two" = true) /\
  "Router Two"%string = "Router Two"%string.
Proof.
  apply (search_prints_member (engine := fragment_engine) "rtr2"
           (compiled "rtr2") three_devices (mkEntity "rtr2" "Router Two")
           "Router Two").
  - reflexivity.
  - left. reflexivity.
Defined.

Lemma plugins_search_outcome_witness :
  let run := _plugins other_state (Some "bgp") false false in
  printed_panels run =
    [Plugin (mkEntity "bgp_routing_table" "BGP Routing Table")] /\
  ([mkEntity "bgp_routing_table" "BGP Routing Table"] = [] <->
   exit_status (outcome run) = 1) /\
  ([mkEntity "bgp_routing_table" "BGP Routing Table"] = [] <->
   In (EchoError (no_plugins_matching "bgp")) (trace run)) /\
  ([mkEntity "bgp_routing_table" "BGP Routing Table"] <> [] <->
   outcome run = Raise (TyperExit 0)) /\
  outcome run <> Ok tt.
Proof.
  apply (plugins_search_outcome (engine := fragment_engine) "bgp"
           (compiled "bgp") other_state false false).
  reflexivity.
Defined.

Lemma plugins_flags_select_witness :
  _plugins example_state (Some "remove") true true =
  _plugins other_state (Some "remove") true false.
Proof.
  apply (proj1 (plugins_flags_select (engine := fragment_engine)
                  example_state other_state (Some "remove") true false)).
  reflexivity.
Defined.

(** X11: for an engine that reads the patterns of the fragment as the
    reference semantics does, a devices or directives search with a pattern
    of literal characters is a starts-with test on the id or the name that
    ignores the case of letters, the characters that [re.IGNORECASE]
    identifies with an ASCII letter included: the first entity that passes
    it is the one shown, and the collection is listed when none does. *)
Theorem literal_search_is_starts_with (engine : PyRegex) s entities :
  agrees_on_fragment engine ->
  forallb Re.literal_char (list_ascii_of_string s) = true ->
  let starts (e : NamedEntity) :=
    Re.ci_prefix (list_ascii_of_string s)
      (Re.symbols (list_ascii_of_string (id e))) ||
    Re.ci_prefix (list_ascii_of_string s)
      (Re.symbols (list_ascii_of_string (name e))) in
  let answer :=
    match find starts entities with
    | Some hit =>
        ([ConsolePrint (Single (Inspect hit (name hit)))], Raise (TyperExit 0))
    | None =>
        ([ConsolePrint (Columns (map (fun e => Inspect e (name e)) entities))],
         Ok tt)
    end in
  _devices entities (Some s) = answer /\
  _directives entities (Some s) = answer.
Proof.
  intros Hagree Hlit starts answer. subst answer.
  pose proof (ReFacts.compile_literal s Hlit) as Hr.
  set (r := fold_right Re.Seq Re.Eps (map Re.Chr (list_ascii_of_string s))) in Hr.
  destruct (Hagree s r Hr) as (p & Hp & Hmatch).
  assert (Hall : forall t,
             re_match p t =
             Re.ci_prefix (list_ascii_of_string s)
               (Re.symbols (list_ascii_of_string t))).
  { intros t. apply eq_true_iff_eq. rewrite Hmatch. unfold starts_with.
    symmetry. apply ReFacts.literal_starts. }
  assert (Hm : forall e, id_or_name_matches p e = starts e).
  { intros e. unfold starts, id_or_name_matches. now rewrite !Hall. }
  rewrite (devices_with_pattern s p entities Hp).
  rewrite (directives_with_pattern s p entities Hp).
  rewrite (find_ext _ _ entities Hm).
  now destruct (find starts entities).
Qed.

Lemma literal_search_is_starts_with_witness :
  _devices kelvin_devices (Some "k") =
    ([ConsolePrint (Single (Inspect (mkEntity kelvin_one "Probe") "Probe"))],
     Raise (TyperExit 0)) /\
  _directives kelvin_devices (Some "k") =
    ([ConsolePrint (Single (Inspect (mkEntity kelvin_one "Probe") "Probe"))],
     Raise (TyperExit 0)).
Proof.
  apply (literal_search_is_starts_with fragment_engine "k" kelvin_devices
           ReFacts.fragment_engine_agrees).
  reflexivity.
Defined.

(** ** [params]: the value shown and how paths compose *)

Lemma py_split_dot_free n : dot_free n -> py_split "." n = [n].
Proof.
  unfold dot_free. induction n as [| c n IH]; simpl; intros Hfree.
  - reflexivity.
  - destruct (Ascii.eqb c ".") eqn:Hc.
    + apply Ascii.eqb_eq in Hc. subst c. exfalso. apply Hfree. now left.
    + rewrite IH; [reflexivity |]. intros Hin. apply Hfree. now right.
Qed.

(** Splitting undoes joining, for names without a dot. *)
Lemma py_split_join names :
  names <> [] -> Forall dot_free names ->
  py_split "." (join_dots names) = names.
Proof.
  induction names as [| n rest IH]; intros Hne Hfree; [contradiction |].
  inversion Hfree as [| ? ? Hn Hrest]; subst.
  destruct rest as [| m rest].
  - simpl. now apply py_split_dot_free.
  - change (join_dots (n :: m :: rest))
      with (n ++ String "." (join_dots (m :: rest)))%string.
    rewrite py_split_app, (py_split_dot_free n Hn), IH by (auto; discriminate).
    reflexivity.
Qed.

Lemma find_first {A} (f : A -> bool) (l : list A) x :
  find f l = Some x <->
  exists before after,
    l = before ++ x :: after /\ f x = true /\
    forall y, In y before -> f y = false.
Proof.
  split.
  - induction l as [| a l IH]; simpl; [discriminate |].
    destruct (f a) eqn:Ha.
    + intros [= ->]. now exists [], l.
    + intros Hfind. destruct (IH Hfind) as (before & after & -> & Hx & Hb).
      exists (a :: before), after. repeat split; auto.
      intros y [<- | Hy]; auto.
  - intros (before & after & -> & Hx & Hb).
    induction before as [| a before IH]; simpl.
    + now rewrite Hx.
    + rewrite (Hb a (or_introl eq_refl)). apply IH.
      intros y Hy. apply Hb. now right.
Qed.

(** [getattr] answers the first binding of the name. *)
Lemma getattr_first_binding shown attrs n child :
  getattr (Obj shown attrs) n = Ok child <-> first_binding attrs n child.
Proof.
  unfold first_binding. simpl. split.
  - destruct (find _ attrs) as [kv |] eqn:Hfind; [| discriminate].
    intros [= <-]. apply find_first in Hfind.
    destruct Hfind as (before & after & -> & Hkey & Hb).
    apply String.eqb_eq in Hkey. subst n. destruct kv as [k c].
    exists before, after. split; [reflexivity |].
    intros y Hy Heq. specialize (Hb y Hy). simpl in Heq.
    apply String.eqb_neq in Hb. contradiction.
  - intros (before & after & -> & Hb).
    assert (Hfind : find (fun kv => String.eqb (fst kv) n)
                      (before ++ (n, child) :: after) = Some (n, child)).
    { apply find_first. exists before, after. split; [reflexivity |].
      split; [apply String.eqb_refl |].
      intros y Hy. apply String.eqb_neq. now apply Hb. }
    now rewrite Hfind.
Qed.

(** The loop of [attrgetter] reaches what attribute access by hand
    reaches. *)
Lemma resolve_names_reaches names : forall obj v,
  resolve_names names obj = Ok v <-> reaches obj names v.
Proof.
  induction names as [| n rest IH]; intros obj v; simpl.
  - split.
    + intros [= ->]. constructor.
    + intros H. inversion H. reflexivity.
  - destruct obj as [shown attrs]. split.
    + destruct (getattr (Obj shown attrs) n) as [child | e] eqn:Hget;
        [| discriminate].
      intros Hres. apply (reaches_step shown attrs n child).
      * exact (proj1 (getattr_first_binding shown attrs n child) Hget).
      * now apply IH.
    + intros H. inversion H as [| ? ? ? child ? ? Hbind Hrest]; subst.
      rewrite (proj2 (getattr_first_binding shown attrs n child) Hbind).
      now apply IH.
Qed.

(** X12: for a path made of one or more names without a dot, joined by
    dots, [params] shows a value and leaves with exit code 0 exactly when
    attribute access by hand, one name after the other and each name taken
    at its first binding, reaches a value from the root; the value shown,
    under the title [params.<path>], is that value. *)
Theorem params_shows_reached_value params names v :
  names <> [] ->
  Forall dot_free names ->
  (reaches params names v <->
   _params params (Some (join_dots names)) =
     ([ConsolePrint
         (Single (InspectValue v ("params." ++ join_dots names)))],
      Raise (TyperExit 0))).
Proof.
  intros Hne Hfree. rewrite params_with_path. unfold attrgetter.
  rewrite (py_split_join names Hne Hfree), <- resolve_names_reaches. split.
  - now intros ->.
  - destruct (resolve_names names params) as [v' | e].
    + now intros [= ->].
    + destruct (is_attribute_error e); discriminate.
Qed.

Lemma params_shows_reached_value_witness :
  reaches example_params ["messages"%string; "no_input"%string]
    (Obj "'required'" []) <->
  _params example_params (Some "messages.no_input") =
    ([ConsolePrint
        (Single (InspectValue (Obj "'required'" []) "params.messages.no_input"))],
     Raise (TyperExit 0)).
Proof.
  apply (params_shows_reached_value example_params
           ["messages"%string; "no_input"%string] (Obj "'required'" [])).
  - discriminate.
  - repeat constructor; intros H;
      repeat (destruct H as [H | H]; [discriminate H |]); exact H.
Defined.

(** X13: paths compose: when [a] resolves to an object, the path [a.b]
    resolves from the root to what [b] resolves to from that object, and the
    command ends with the same exit code in both cases. *)
Theorem params_path_composes root a b mid :
  attrgetter a root = Ok mid ->
  attrgetter (a ++ "." ++ b)%string root = attrgetter b mid /\
  exit_status (outcome (_params root (Some (a ++ "." ++ b)%string))) =
  exit_status (outcome (_params mid (Some b))).
Proof.
  unfold attrgetter. intros Ha.
  assert (Hab : resolve_names (py_split "." (a ++ "." ++ b)%string) root =
                resolve_names (py_split "." b) mid).
  { change (a ++ "." ++ b)%string with (a ++ String "." b)%string.
    now rewrite py_split_app, resolve_names_app, Ha. }
  split; [exact Hab |].
  rewrite !params_with_path. unfold attrgetter. rewrite Hab.
  destruct (resolve_names (py_split "." b) mid) as [v | e]; [reflexivity |].
  now destruct (is_attribute_error e).
Qed.

Lemma params_path_composes_witness :
  attrgetter ("messages" ++ "." ++ "no_input")%string example_params =
    attrgetter "no_input" (Obj "Messages" [("no_input"%string, Obj "'required'" [])]) /\
  exit_status
    (outcome (_params example_params
                (Some ("messages" ++ "." ++ "no_input")%string))) =
  exit_status
    (outcome (_params (Obj "Messages" [("no_input"%string, Obj "'required'" [])])
                (Some "no_input"))).
Proof.
  apply (params_path_composes example_params "messages" "no_input").
  reflexivity.
Defined.

(** X14: a path that fails keeps failing when it is extended: if [params]
    ends with exit code 1 on [a], it ends with the does-not-exist error for
    the longer path and exit code 1 on [a.b]. *)
Theorem params_failure_extends root a b :
  exit_status (outcome (_params root (Some a))) = 1 ->
  _params root (Some (a ++ "." ++ b)%string) =
    ([EchoError [FRepr ("params." ++ a ++ "." ++ b); FText " does not exist"]],
     Raise (TyperExit 1)).
Proof.
  rewrite !params_with_path. unfold attrgetter.
  change (a ++ "." ++ b)%string with (a ++ String "." b)%string.
  rewrite py_split_app, resolve_names_app.
  destruct (resolve_names_cases (py_split "." a) root) as [[v ->] | ->].
  - discriminate.
  - reflexivity.
Qed.

Lemma params_failure_extends_witness :
  _params example_params (Some ("routing" ++ "." ++ "bgp")%string) =
    ([EchoError [FRepr "params.routing.bgp"; FText " does not exist"]],
     Raise (TyperExit 1)).
Proof.
  apply (params_failure_extends example_params "routing" "bgp").
  reflexivity.
Defined.

(** ** [build-ui] *)

(** X15: [build-ui] forwards its timeout to the build step, once, inside
    the console status, and drops the answer: it returns, exit code 0,
    whether the build answered true or false. *)
Theorem build_ui_ignores_answer env timeout (answer : bool) :
  build_ui env timeout = Ok answer ->
  _build_ui env timeout =
    ([StatusEnter
        ("Starting new UI build with a " ++ py_str (PyInt timeout)
           ++ " second timeout...")%string "aesthetic";
      Core (CallBuildUi timeout);
      StatusExit],
     Ok tt) /\
  exit_status (snd (_build_ui env timeout)) = 0.
Proof.
  intros Hbuild. unfold _build_ui, Io.with_status, Io.bind, Io.emit, Io.lift,
    Io.ret. rewrite Hbuild. now split.
Qed.

Lemma build_ui_ignores_answer_witness :
  _build_ui failing_build_env 60 =
    ([StatusEnter "Starting new UI build with a 60 second timeout..."
        "aesthetic";
      Core (CallBuildUi 60);
      StatusExit],
     Ok tt) /\
  exit_status (snd (_build_ui failing_build_env 60)) = 0.
Proof.
  apply (build_ui_ignores_answer failing_build_env 60 false). reflexivity.
Defined.

(** X16: [build-ui] has no handler of its own: whatever the build step
    raises, a keyboard interrupt included, leaves the command unchanged, once
    the console status has been left; nothing is echoed. *)
Theorem build_ui_exception_propagates env timeout e :
  build_ui env timeout = Raise e ->
  snd (_build_ui env timeout) = Raise e /\
  exists text,
    fst (_build_ui env timeout) =
      [StatusEnter text "aesthetic"; Core (CallBuildUi timeout); StatusExit].
Proof.
  intros Hbuild. unfold _build_ui, Io.with_status, Io.bind, Io.emit, Io.lift,
    Io.ret. rewrite Hbuild. simpl. split; [reflexivity | eauto].
Qed.

Lemma build_ui_exception_propagates_witness :
  snd (_build_ui exit_raising_build_env 180) = Raise (TyperExit 1) /\
  exists text,
    fst (_build_ui exit_raising_build_env 180) =
      [StatusEnter text "aesthetic"; Core (CallBuildUi 180); StatusExit].
Proof.
  apply (build_ui_exception_propagates exit_raising_build_env 180 (TyperExit 1)).
  reflexivity.
Defined.

(** ** [clear-cache] *)

Lemma clear_cache_cases env :
  _clear_cache env =
  match clear env with
  | Ok _ => ([StateClear; EchoSuccess "Cleared Redis Cache"], Ok tt)
  | Raise e =>
      if is_exception e
      then if isatty env
           then ([StateClear; EchoErrorWith "Error clearing cache: {!s}" e],
                 Raise (TyperExit 1))
           else ([StateClear; PrintException true], Raise (TyperExit 1))
      else ([StateClear], Raise e)
  end.
Proof.
  unfold _clear_cache, Io.try_except, Io.bind, Io.emit, Io.lift, Io.when,
    Io.raise, Io.ret.
  destruct (clear env) as [[] | e]; simpl; [reflexivity |].
  destruct (is_exception e); [| reflexivity].
  now destruct (isatty env).
Qed.

(** X17: when [state.clear()] raises an [Exception], [clear-cache] leaves
    with exit code 1 on a terminal as well as off it, without the success
    message, and reports once: the error line with the exception on a
    terminal, the traceback with locals, and no error line, otherwise. *)
Theorem clear_cache_failure env e :
  clear env = Raise e ->
  is_exception e = true ->
  snd (_clear_cache env) = Raise (TyperExit 1) /\
  exit_status (snd (_clear_cache env)) = 1 /\
  fst (_clear_cache env) =
    [StateClear;
     if isatty env then EchoErrorWith "Error clearing cache: {!s}" e
     else PrintException true].
Proof.
  intros Hclear Hexc. rewrite clear_cache_cases, Hclear, Hexc.
  now destruct (isatty env).
Qed.

Lemma clear_cache_failure_witness :
  snd (_clear_cache broken_cache_env) = Raise (TyperExit 1) /\
  exit_status (snd (_clear_cache broken_cache_env)) = 1 /\
  fst (_clear_cache broken_cache_env) =
    [StateClear;
     EchoErrorWith "Error clearing cache: {!s}" (OtherError "ConnectionError")].
Proof.
  apply (clear_cache_failure broken_cache_env (OtherError "ConnectionError"));
    reflexivity.
Defined.

(** X18: [except Exception] does not catch [KeyboardInterrupt] and
    [SystemExit]: raised by [state.clear()], they leave [clear-cache]
    unchanged and nothing is reported. *)
Theorem clear_cache_interrupt_propagates env e :
  clear env = Raise e ->
  is_exception e = false ->
  _clear_cache env = ([StateClear], Raise e).
Proof.
  intros Hclear Hexc. now rewrite clear_cache_cases, Hclear, Hexc.
Qed.

Lemma clear_cache_interrupt_propagates_witness :
  _clear_cache interrupted_cache_env =
    ([StateClear], Raise (KeyboardInterrupt None)).
Proof.
  apply (clear_cache_interrupt_propagates interrupted_cache_env
           (KeyboardInterrupt None)); reflexivity.
Defined.

(** X19: [clear-cache] echoes its success message exactly when
    [state.clear()] returns, which is also exactly when the command returns;
    and it never reports both a traceback and an error line. *)
Theorem clear_cache_success_iff env :
  (In (EchoSuccess "Cleared Redis Cache") (fst (_clear_cache env)) <->
   exists u, clear env = Ok u) /\
  (snd (_clear_cache env) = Ok tt <-> exists u, clear env = Ok u) /\
  (length (filter is_traceback (fst (_clear_cache env))) +
   length (filter is_error_echo (fst (_clear_cache env))) <= 1)%nat.
Proof.
  rewrite clear_cache_cases.
  destruct (clear env) as [u | e].
  - simpl. split; [| split]; [| | lia].
    + split; [eauto | intros _; right; now left].
    + split; [eauto | reflexivity].
  - assert (Hno : ~ exists u : unit, @Raise unit e = Ok u)
      by (intros [u Hu]; discriminate Hu).
    destruct (is_exception e); [destruct (isatty env) |]; simpl;
      (split; [| split]; [| | lia]);
      (split; [| intros H; exfalso; apply Hno; exact H]);
      try discriminate;
      intros H; repeat (destruct H as [H | H]; [discriminate H |]);
      contradiction.
Qed.
